(** * Casa Inteligente: a shallow embedding of [práctica3.py]

    The Python program defines an abstract class [Dispositivo], three
    concrete subclasses and a composite [CasaInteligente] that keeps
    references to devices and runs one automation rule.  Devices are
    mutable objects shared by reference, so the embedding keeps them in a
    store indexed by references; randomness and the text written to the
    standard output are threaded explicitly. *)

From Stdlib Require Import Ascii.
From stdpp Require Import gmap strings list pretty.

Local Open Scope string_scope.

(** ** The [random] module

    [random.randint] and [random.choice] are both implemented on top of
    one primitive, [_randbelow n], which returns an integer in [0, n).
    The generator is left abstract: any state type with such a primitive
    is a random source. *)

Class RandomSource (G : Type) := {
  randbelow : Z → G → Z * G;
  randbelow_range : ∀ n g, (0 < n)%Z → (0 ≤ (randbelow n g).1 < n)%Z
}.

(** [randint(a, b)] is [randrange(a, b + 1)], that is
    [a + _randbelow(b + 1 - a)].  Python raises [ValueError] when
    [b < a]; the program only calls [randint(30, 100)]. *)
Definition randint `{RandomSource G} (a b : Z) (g : G) : Z * G :=
  let '(k, g') := randbelow (b + 1 - a)%Z g in ((a + k)%Z, g').

(** [choice(seq)] is [seq[_randbelow(len(seq))]].  The sequence is given
    by its first element and the rest, Python raises [IndexError] on an
    empty one. *)
Definition choice `{RandomSource G} {A} (x : A) (rest : list A) (g : G) : A * G :=
  let '(i, g') := randbelow (Z.of_nat (length (x :: rest))) g in
  (nth (Z.to_nat i) (x :: rest) x, g').

(** A concrete source: a tape of raw draws, each reduced modulo the
    bound; an exhausted tape keeps answering 0. *)
Definition Cinta := list Z.

Definition cinta_randbelow (n : Z) (t : Cinta) : Z * Cinta :=
  match t with
  | [] => (0%Z, [])
  | x :: t' => ((x mod n)%Z, t')
  end.

#[export] Instance cinta_source : RandomSource Cinta.
Proof.
  refine {| randbelow := cinta_randbelow |}.
  intros n [|x t] Hn; simpl; [lia | by apply Z.mod_pos_bound].
Defined.

(** ** Classes and the [abc] machinery

    [Dispositivo] derives from [ABC] and marks three methods with
    [@abstractmethod]; each subclass defines all three again. *)

Inductive Clase : Type :=
| C_Dispositivo
| C_LuzInteligente
| C_CamaraSeguridad
| C_SensorMovimiento.

#[export] Instance Clase_eq_dec : EqDecision Clase.
Proof. solve_decision. Defined.

Record Metodo : Type := { nombre : string; es_abstracto : bool }.

Definition concreto (n : string) : Metodo := {| nombre := n; es_abstracto := false |}.
Definition abstracto (n : string) : Metodo := {| nombre := n; es_abstracto := true |}.

(** The methods each class body defines, in source order. *)
Definition namespace (c : Clase) : list Metodo :=
  match c with
  | C_Dispositivo =>
      [ concreto "__init__"; abstracto "encender"; abstracto "apagar";
        abstracto "mostrar_datos"; concreto "obtener_estado";
        concreto "cambiar_estado"; concreto "obtener_id" ]
  | C_LuzInteligente | C_CamaraSeguridad | C_SensorMovimiento =>
      [ concreto "__init__"; concreto "encender"; concreto "apagar";
        concreto "mostrar_datos" ]
  end.

(** Base classes declared in this file ([ABC] itself contributes no
    methods and is left out). *)
Definition bases (c : Clase) : list Clase :=
  match c with
  | C_Dispositivo => []
  | C_LuzInteligente | C_CamaraSeguridad | C_SensorMovimiento => [C_Dispositivo]
  end.

(** Method resolution order. *)
Definition mro (c : Clase) : list Clase := c :: bases c.

Definition issubclass (c k : Clase) : bool := bool_decide (k ∈ mro c).

Definition buscar (n : string) (ms : list Metodo) : option Metodo :=
  find (λ m, bool_decide (nombre m = n)) ms.

(** [getattr(cls, name, None)]: first definition along the MRO. *)
Fixpoint getattr_en (cs : list Clase) (n : string) : option Metodo :=
  match cs with
  | [] => None
  | c :: cs' =>
      match buscar n (namespace c) with
      | Some m => Some m
      | None => getattr_en cs' n
      end
  end.

Definition getattr_clase (c : Clase) (n : string) : option Metodo :=
  getattr_en (mro c) n.

Definition abstractos_propios (c : Clase) : list string :=
  nombre <$> List.filter es_abstracto (namespace c).

Definition sigue_abstracto (c : Clase) (n : string) : bool :=
  match getattr_clase c n with
  | Some m => es_abstracto m
  | None => false
  end.

(** [ABCMeta.__new__]: the abstract names of a class are those its own
    body marks abstract, plus those of its bases that still resolve to an
    abstract definition.  The hierarchy has depth one, so the abstract
    names of a base are the ones of its own body. *)
Definition abstractmethods (c : Clase) : list string :=
  abstractos_propios c ++
  List.filter (sigue_abstracto c) (mjoin (abstractos_propios <$> bases c)).

Inductive Excepcion : Type :=
| TypeError_abstracta (c : Clase) (faltan : list string).

(** ** Devices *)

(** The two name-mangled attributes set by [Dispositivo.__init__]. *)
Record Dispositivo_base : Type := {
  id_dispositivo : Z;
  estado : bool
}.

(** An instance of one of the concrete subclasses: the inherited part and
    the attribute the subclass adds. *)
Inductive Dispositivo : Type :=
| LuzInteligente (b : Dispositivo_base) (intensidad : Z)
| CamaraSeguridad (b : Dispositivo_base) (grabando : bool)
| SensorMovimiento (b : Dispositivo_base) (movimiento_detectado : bool).

#[export] Instance Dispositivo_base_eq_dec : EqDecision Dispositivo_base.
Proof. solve_decision. Defined.

#[export] Instance Dispositivo_eq_dec : EqDecision Dispositivo.
Proof. solve_decision. Defined.

Definition parte_base (d : Dispositivo) : Dispositivo_base :=
  match d with
  | LuzInteligente b _ | CamaraSeguridad b _ | SensorMovimiento b _ => b
  end.

Definition clase_de (d : Dispositivo) : Clase :=
  match d with
  | LuzInteligente _ _ => C_LuzInteligente
  | CamaraSeguridad _ _ => C_CamaraSeguridad
  | SensorMovimiento _ _ => C_SensorMovimiento
  end.

(** [isinstance(d, cls)] and [isinstance(d, (cls1, cls2, ...))]. *)
Definition isinstance (d : Dispositivo) (c : Clase) : bool :=
  issubclass (clase_de d) c.

Definition isinstance_tupla (d : Dispositivo) (cs : list Clase) : bool :=
  existsb (isinstance d) cs.

(** *** [Dispositivo] *)

Definition Dispositivo_init (id : Z) : Dispositivo_base :=
  {| id_dispositivo := id; estado := false |}.

Definition obtener_estado (d : Dispositivo) : string :=
  if estado (parte_base d) then "Encendido" else "Apagado".

Definition cambiar_estado_base (nuevo_estado : bool) (b : Dispositivo_base) : Dispositivo_base :=
  {| id_dispositivo := id_dispositivo b; estado := nuevo_estado |}.

Definition cambiar_estado (nuevo_estado : bool) (d : Dispositivo) : Dispositivo :=
  match d with
  | LuzInteligente b i => LuzInteligente (cambiar_estado_base nuevo_estado b) i
  | CamaraSeguridad b g => CamaraSeguridad (cambiar_estado_base nuevo_estado b) g
  | SensorMovimiento b m => SensorMovimiento (cambiar_estado_base nuevo_estado b) m
  end.

Definition obtener_id (d : Dispositivo) : Z := id_dispositivo (parte_base d).

(** *** Constructors of the subclasses *)

Definition LuzInteligente_init (id : Z) : Dispositivo :=
  LuzInteligente (Dispositivo_init id) 0.

Definition CamaraSeguridad_init (id : Z) : Dispositivo :=
  CamaraSeguridad (Dispositivo_init id) false.

Definition SensorMovimiento_init (id : Z) : Dispositivo :=
  SensorMovimiento (Dispositivo_init id) false.

(** What a call [cls(id)] yields once instantiation is allowed: for the
    base class only the inherited part exists. *)
Inductive Objeto : Type :=
| Obj_base (b : Dispositivo_base)
| Obj_dispositivo (d : Dispositivo).

Definition init_de (c : Clase) (id : Z) : Objeto :=
  match c with
  | C_Dispositivo => Obj_base (Dispositivo_init id)
  | C_LuzInteligente => Obj_dispositivo (LuzInteligente_init id)
  | C_CamaraSeguridad => Obj_dispositivo (CamaraSeguridad_init id)
  | C_SensorMovimiento => Obj_dispositivo (SensorMovimiento_init id)
  end.

(** [cls(id)]: [object.__new__] refuses a class whose set of abstract
    methods is not empty, before [__init__] runs. *)
Definition instanciar (c : Clase) (id : Z) : Excepcion + Objeto :=
  match abstractmethods c with
  | [] => inr (init_de c id)
  | faltan => inl (TypeError_abstracta c faltan)
  end.

(** *** [encender], [apagar], [mostrar_datos] *)

Definition str_bool (b : bool) : string := if b then "True" else "False".

Section Metodos.
Context `{RandomSource G}.

Definition encender (d : Dispositivo) (g : G) : Dispositivo * G :=
  match cambiar_estado true d with
  | LuzInteligente b _ =>
      let '(k, g') := randint 30 100 g in (LuzInteligente b k, g')
  | CamaraSeguridad b _ => (CamaraSeguridad b true, g)
  | SensorMovimiento b _ =>
      let '(m, g') := choice true [false] g in (SensorMovimiento b m, g')
  end.

End Metodos.

Definition apagar (d : Dispositivo) : Dispositivo :=
  match cambiar_estado false d with
  | LuzInteligente b _ => LuzInteligente b 0
  | CamaraSeguridad b _ => CamaraSeguridad b false
  | SensorMovimiento b _ => SensorMovimiento b false
  end.

Definition mostrar_datos (d : Dispositivo) : string :=
  match d with
  | LuzInteligente _ i =>
      "[LuzInteligente #" +:+ pretty (obtener_id d) +:+ "] Estado: " +:+
      obtener_estado d +:+ " | Intensidad: " +:+ pretty i +:+ "%"
  | CamaraSeguridad _ g =>
      "[CamaraSeguridad #" +:+ pretty (obtener_id d) +:+ "] Estado: " +:+
      obtener_estado d +:+ " | Grabando: " +:+ str_bool g
  | SensorMovimiento _ m =>
      "[SensorMovimiento #" +:+ pretty (obtener_id d) +:+ "] Estado: " +:+
      obtener_estado d +:+ " | Movimiento detectado: " +:+ str_bool m
  end.

(** The public methods a caller can invoke on a device. *)
Inductive Llamada : Type :=
| Ll_encender
| Ll_apagar
| Ll_mostrar_datos
| Ll_obtener_estado
| Ll_cambiar_estado (nuevo_estado : bool)
| Ll_obtener_id.

(** The device after the call (the returned text or number is dropped). *)
Definition tras_llamada `{RandomSource G} (c : Llamada) (d : Dispositivo) (g : G)
  : Dispositivo * G :=
  match c with
  | Ll_encender => encender d g
  | Ll_apagar => (apagar d, g)
  | Ll_cambiar_estado nuevo => (cambiar_estado nuevo d, g)
  | Ll_mostrar_datos | Ll_obtener_estado | Ll_obtener_id => (d, g)
  end.

(** ** The world: object store, random source and standard output *)

Record Mundo (G : Type) : Type := {
  objetos : gmap nat Dispositivo;
  azar : G;
  salida : string
}.
Arguments objetos {G} _.
Arguments azar {G} _.
Arguments salida {G} _.

Definition M (G A : Type) : Type := Mundo G → A * Mundo G.

#[export] Instance M_ret {G} : MRet (M G) := λ A a w, (a, w).

#[export] Instance M_bind {G} : MBind (M G) :=
  λ A B k m w, let '(a, w') := m w in k a w'.

(** [for x in l: cuerpo(x)] *)
Fixpoint for_each {G A} (cuerpo : A → M G unit) (l : list A) : M G unit :=
  match l with
  | [] => mret tt
  | x :: l' => cuerpo x;; for_each cuerpo l'
  end.

(** [any(p(x) for x in l)], stopping at the first true value. *)
Fixpoint any {A} (p : A → bool) (l : list A) : bool :=
  match l with
  | [] => false
  | x :: l' => if p x then true else any p l'
  end.

Definition nl : string := String (Ascii.ascii_of_nat 10) "".

(** [print(a1, ..., an)]: the arguments separated by one space, then a
    newline. *)
Definition print {G} (args : list string) : M G unit :=
  λ w, (tt, {| objetos := objetos w; azar := azar w;
               salida := salida w +:+ String.concat " " args +:+ nl |}).

(** A fresh object in the store; the reference is returned. *)
Definition nuevo {G} (d : Dispositivo) : M G nat :=
  λ w, let r := fresh (dom (objetos w)) in
       (r, {| objetos := <[r := d]> (objetos w); azar := azar w; salida := salida w |}).

(** Reading through a reference.  A reference the store does not bind
    denotes no object (Python has no such reference): reads give [None]
    and method calls do nothing. *)
Definition leer {G} (r : nat) : M G (option Dispositivo) :=
  λ w, (objetos w !! r, w).

Section Llamadas.
Context `{RandomSource G}.

(** [d.encender()] on the object behind [r]. *)
Definition llamar_encender (r : nat) : M G unit :=
  λ w, match objetos w !! r with
       | Some d =>
           let '(d', g') := encender d (azar w) in
           (tt, {| objetos := <[r := d']> (objetos w); azar := g'; salida := salida w |})
       | None => (tt, w)
       end.

End Llamadas.

(** [d.apagar()] on the object behind [r]. *)
Definition llamar_apagar {G} (r : nat) : M G unit :=
  λ w, match objetos w !! r with
       | Some d =>
           (tt, {| objetos := <[r := apagar d]> (objetos w); azar := azar w;
                   salida := salida w |})
       | None => (tt, w)
       end.

(** ** [CasaInteligente] *)

Record CasaInteligente : Type := { dispositivos : list nat }.

Definition CasaInteligente_init : CasaInteligente := {| dispositivos := [] |}.

Definition agregar_dispositivo (casa : CasaInteligente) (dispositivo : nat) : CasaInteligente :=
  {| dispositivos := dispositivos casa ++ [dispositivo] |}.

Definition cabecera : string := nl +:+ "📋 ESTADO ACTUAL DE LOS DISPOSITIVOS:".

(** The body of the loop of [mostrar_todos]. *)
Definition mostrar_uno {G} (r : nat) : M G unit :=
  od ← leer r;
  match od with
  | Some d => print ["  "; mostrar_datos d]
  | None => mret tt
  end.

Definition mostrar_todos {G} (casa : CasaInteligente) : M G unit :=
  print [cabecera];;
  for_each mostrar_uno (dispositivos casa).

(** [isinstance(d, SensorMovimiento) and d.movimiento_detectado]; the
    attribute is only read when the first operand is true. *)
Definition sensor_con_movimiento (d : Dispositivo) : bool :=
  if isinstance d C_SensorMovimiento then
    match d with
    | SensorMovimiento _ m => m
    | _ => false
    end
  else false.

Definition hay_movimiento {G} (casa : CasaInteligente) (w : Mundo G) : bool :=
  any (λ r, match objetos w !! r with
            | Some d => sensor_con_movimiento d
            | None => false
            end)
      (dispositivos casa).

Definition aviso_inicio : string := nl +:+ "🤖 Ejecutando escena automática..." +:+ nl.
Definition aviso_movimiento : string :=
  "🚨 Movimiento detectado → Encendiendo luces y cámaras...".
Definition aviso_reposo : string :=
  "✅ No se detectó movimiento. La casa permanece en modo reposo.".

Section Escena.
Context `{RandomSource G}.

(** The body of the second loop of [ejecutar_escena]. *)
Definition encender_si_luz_o_camara (r : nat) : M G unit :=
  od ← leer r;
  match od with
  | Some d =>
      if isinstance_tupla d [C_LuzInteligente; C_CamaraSeguridad]
      then llamar_encender r
      else mret tt
  | None => mret tt
  end.

Definition ejecutar_escena (casa : CasaInteligente) : M G unit :=
  print [aviso_inicio];;
  hay ← ((λ w, (hay_movimiento casa w, w)) : M G bool);
  if hay : bool then
    print [aviso_movimiento];;
    for_each encender_si_luz_o_camara (dispositivos casa)
  else
    print [aviso_reposo].

(** The script under [if __name__ == "__main__"]; [time.sleep] only
    delays and is left out. *)
Definition main : M G unit :=
  print ["🏠 Simulación de Casa Inteligente 🏠" +:+ nl];;
  let casa := CasaInteligente_init in
  r1 ← nuevo (LuzInteligente_init 1);
  r2 ← nuevo (LuzInteligente_init 2);
  r3 ← nuevo (CamaraSeguridad_init 3);
  r4 ← nuevo (CamaraSeguridad_init 4);
  r5 ← nuevo (SensorMovimiento_init 5);
  let dispositivos := [r1; r2; r3; r4; r5] in
  let casa := foldl agregar_dispositivo casa dispositivos in
  for_each llamar_encender dispositivos;;
  mostrar_todos casa;;
  ejecutar_escena casa;;
  mostrar_todos casa;;
  print [nl +:+ "🏁 Fin de la simulación 🏁"].

End Escena.

Definition mundo_inicial {G} (g : G) : Mundo G :=
  {| objetos := ∅; azar := g; salida := "" |}.

(** ** Vocabulary of the properties *)

(** What one [encender] call may turn a device into. *)
Definition resultado_encender (d d' : Dispositivo) : Prop :=
  match d with
  | LuzInteligente b _ =>
      ∃ k, (30 ≤ k ≤ 100)%Z ∧ d' = LuzInteligente (cambiar_estado_base true b) k
  | CamaraSeguridad b _ => d' = CamaraSeguridad (cambiar_estado_base true b) true
  | SensorMovimiento b _ => ∃ m, d' = SensorMovimiento (cambiar_estado_base true b) m
  end.

(** The variant attribute is at its off value. *)
Definition en_reposo (d : Dispositivo) : Prop :=
  match d with
  | LuzInteligente _ i => i = 0%Z
  | CamaraSeguridad _ g => g = false
  | SensorMovimiento _ m => m = false
  end.

(** For a camera, [grabando] agrees with the power state. *)
Definition grabando_segun_estado (d : Dispositivo) : Prop :=
  match d with
  | CamaraSeguridad b g => g = estado b
  | _ => True
  end.

(** Whether the object behind a reference is a light or a camera. *)
Definition luz_o_camara_en (m : gmap nat Dispositivo) (r : nat) : bool :=
  match m !! r with
  | Some d => isinstance_tupla d [C_LuzInteligente; C_CamaraSeguridad]
  | None => false
  end.

(** The effect of the second loop of [ejecutar_escena] on a store. *)
Definition tras_bucle (l : list nat) (m m' : gmap nat Dispositivo) : Prop :=
  ∀ r, match m !! r with
       | Some d =>
           if bool_decide (r ∈ l) && isinstance_tupla d [C_LuzInteligente; C_CamaraSeguridad]
           then ∃ d', m' !! r = Some d' ∧ resultado_encender d d'
           else m' !! r = Some d
       | None => m' !! r = None
       end.

(** Sample worlds used to exercise the theorems: a light, a camera and a
    sensor behind the references 0, 1 and 2. *)
Definition objetos_ejemplo (movimiento : bool) : gmap nat Dispositivo :=
  <[0 := LuzInteligente_init 1]>
    (<[1 := CamaraSeguridad_init 3]>
       (<[2 := SensorMovimiento {| id_dispositivo := 5; estado := true |} movimiento]> ∅)).

Definition mundo_ejemplo (movimiento : bool) (t : Cinta) : Mundo Cinta :=
  {| objetos := objetos_ejemplo movimiento; azar := t; salida := "" |}.

Definition casa_ejemplo : CasaInteligente := {| dispositivos := [0; 1; 2] |}.

(** What never changes in a device: its class and its identifier. *)
Definition identidad (d : Dispositivo) : Clase * Z := (clase_de d, obtener_id d).

(** The attributes of a device fit together: a light that is off has
    brightness 0 and one that is on a brightness from 30 to 100, a camera
    records exactly when it is on, a sensor reports motion only when on. *)
Definition coherente (d : Dispositivo) : Prop :=
  match d with
  | LuzInteligente b i => if estado b then (30 ≤ i ≤ 100)%Z else i = 0%Z
  | CamaraSeguridad b g => g = estado b
  | SensorMovimiento b m => m = true → estado b = true
  end.

(** Whether the object behind a reference is a light. *)
Definition es_luz_en (m : gmap nat Dispositivo) (r : nat) : bool :=
  match m !! r with
  | Some (LuzInteligente _ _) => true
  | _ => false
  end.

(** The line [mostrar_todos] writes for a reference: three spaces (the
    two of the first argument of [print] and its separator), the text of
    [mostrar_datos] and a newline. *)
Definition linea_de (m : gmap nat Dispositivo) (r : nat) : string :=
  match m !! r with
  | Some d => "   " +:+ mostrar_datos d +:+ nl
  | None => ""
  end.

Definition unir (ls : list string) : string := foldr String.append "" ls.

(** The store of the script once its five devices are constructed. *)
Definition objetos_main : gmap nat Dispositivo :=
  <[0 := LuzInteligente_init 1]>
    (<[1 := LuzInteligente_init 2]>
       (<[2 := CamaraSeguridad_init 3]>
          (<[3 := CamaraSeguridad_init 4]>
             (<[4 := SensorMovimiento_init 5]> ∅)))).

Definition casa_main : CasaInteligente := {| dispositivos := [0; 1; 2; 3; 4] |}.

(** The effect of a loop of [encender] calls on a store. *)
Definition tras_encender (l : list nat) (m m' : gmap nat Dispositivo) : Prop :=
  ∀ r, match m !! r with
       | Some d =>
           if bool_decide (r ∈ l)
           then ∃ d', m' !! r = Some d' ∧ resultado_encender d d'
           else m' !! r = Some d
       | None => m' !! r = None
       end.

(** Every character of a string passes a test. *)
Fixpoint todos (P : Ascii.ascii → bool) (s : string) : bool :=
  match s with
  | EmptyString => true
  | String c s' => P c && todos P s'
  end.

(** The characters a decimal numeral is written with. *)
Definition es_de_numero (c : Ascii.ascii) : bool :=
  match c with
  | "-" | "0" | "1" | "2" | "3" | "4" | "5" | "6" | "7" | "8" | "9" => true
  | _ => false
  end%char.

(** * Properties *)

Arguments isinstance_tupla _ _ : simpl never.

(** ** The random source *)

Section Azar.
Context `{RandomSource G}.

Lemma randint_range (a b : Z) (g : G) :
  (a ≤ b)%Z → (a ≤ (randint a b g).1 ≤ b)%Z.
Proof.
  intros Hab. unfold randint.
  pose proof (randbelow_range (b + 1 - a)%Z g) as Hr.
  destruct (randbelow (b + 1 - a)%Z g) as [k g']; simpl in *. lia.
Qed.

End Azar.

(** Every value of the range is an outcome of some draw. *)
Lemma cinta_randint_alcanza (k : Z) (t : Cinta) :
  (30 ≤ k ≤ 100)%Z → (randint 30 100 ((k - 30)%Z :: t)).1 = k.
Proof.
  intros Hk. unfold randint; simpl.
  rewrite Z.mod_small by lia. lia.
Qed.

(** ** Device methods *)

Lemma clase_de_apagar (d : Dispositivo) : clase_de (apagar d) = clase_de d.
Proof. by destruct d. Qed.

Lemma estado_apagar (d : Dispositivo) : estado (parte_base (apagar d)) = false.
Proof. by destruct d. Qed.

Lemma obtener_id_apagar (d : Dispositivo) : obtener_id (apagar d) = obtener_id d.
Proof. by destruct d. Qed.

Lemma resultado_encender_trans (d d' d'' : Dispositivo) :
  resultado_encender d d' → resultado_encender d' d'' → resultado_encender d d''.
Proof.
  destruct d as [b i|b g|b m]; simpl.
  - intros (k & _ & ->); simpl. intros (k' & Hk' & ->). eauto.
  - intros ->; simpl. by intros ->.
  - intros (m' & ->); simpl. intros (m'' & ->). eauto.
Qed.

Lemma resultado_encender_clase (d d' : Dispositivo) :
  resultado_encender d d' → clase_de d' = clase_de d.
Proof.
  destruct d as [b i|b g|b m]; simpl.
  - by intros (k & _ & ->).
  - by intros ->.
  - by intros (m' & ->).
Qed.

Lemma resultado_encender_estado (d d' : Dispositivo) :
  resultado_encender d d' →
  estado (parte_base d') = true ∧ obtener_id d' = obtener_id d.
Proof.
  destruct d as [b i|b g|b m]; simpl.
  - by intros (k & _ & ->).
  - by intros ->.
  - by intros (m' & ->).
Qed.

Section Encender.
Context `{RandomSource G}.

Lemma encender_resultado (d : Dispositivo) (g : G) :
  resultado_encender d (encender d g).1.
Proof.
  destruct d as [b i|b gr|b m]; simpl.
  - unfold encender; simpl.
    pose proof (randint_range 30 100 g) as Hr.
    destruct (randint 30 100 g) as [k g']; simpl in *.
    exists k. split; [lia | done].
  - done.
  - unfold encender; simpl.
    destruct (choice true [false] g) as [m' g']; simpl. eauto.
Qed.

Lemma clase_de_encender (d : Dispositivo) (g : G) :
  clase_de (encender d g).1 = clase_de d.
Proof. apply resultado_encender_clase, encender_resultado. Qed.

Lemma encender_camara (b : Dispositivo_base) (gr : bool) (g : G) :
  encender (CamaraSeguridad b gr) g =
  (CamaraSeguridad (cambiar_estado_base true b) true, g).
Proof. reflexivity. Qed.

(** C5: for every Light and every outcome of the random draw, after
    [encender] the light is powered and its brightness is an integer
    between 30 and 100 inclusive; after [apagar] it is unpowered with
    brightness 0.  The identifier is kept by both. *)
Theorem C5_luz_encender_apagar (b : Dispositivo_base) (i : Z) (g : G) :
  (∃ k, (30 ≤ k ≤ 100)%Z ∧
        (encender (LuzInteligente b i) g).1 =
        LuzInteligente {| id_dispositivo := id_dispositivo b; estado := true |} k) ∧
  apagar (LuzInteligente b i) =
  LuzInteligente {| id_dispositivo := id_dispositivo b; estado := false |} 0.
Proof.
  split; [| reflexivity].
  exact (encender_resultado (LuzInteligente b i) g).
Qed.

End Encender.

(** C6: for each of the three variants and every starting state, a second
    [apagar] changes nothing, and after [apagar] the status word is
    "Apagado" and the variant attribute is at its off value; the same
    holds for the call through a reference into the store. *)
Theorem C6_apagar_idempotente :
  (∀ d : Dispositivo,
     apagar (apagar d) = apagar d ∧
     obtener_estado (apagar d) = "Apagado" ∧
     en_reposo (apagar d)) ∧
  (∀ G (r : nat) (w : Mundo G),
     (llamar_apagar r (llamar_apagar r w).2).2 = (llamar_apagar r w).2).
Proof.
  split.
  - intros [b i|b g|b m]; by repeat split.
  - intros G r w. unfold llamar_apagar.
    destruct (objetos w !! r) as [d|] eqn:Hd; simpl.
    + rewrite lookup_insert_eq; simpl.
      rewrite insert_insert_eq.
      by destruct d.
    + by rewrite Hd.
Qed.

(** C8: calling the abstract class [Dispositivo] raises [TypeError] before
    any object exists, because its three abstract methods are unimplemented;
    each concrete subclass overrides all three and can be instantiated, and
    every successful instantiation yields a device of a concrete variant. *)
Theorem C8_dispositivo_abstracto (id : Z) :
  instanciar C_Dispositivo id =
    inl (TypeError_abstracta C_Dispositivo ["encender"; "apagar"; "mostrar_datos"]) ∧
  (∀ c, c ≠ C_Dispositivo →
        ∃ d, instanciar c id = inr (Obj_dispositivo d) ∧ clase_de d = c) ∧
  (∀ c o, instanciar c id = inr o → ∃ d, o = Obj_dispositivo d).
Proof.
  split; [reflexivity |]. split.
  - intros c Hc. destruct c; try congruence; eexists; split; reflexivity.
  - intros c o. destruct c; vm_compute; intros Ho; try discriminate;
      injection Ho as <-; eauto.
Qed.

(** C9: a device that has just been constructed is unpowered (status
    "Apagado") with its variant attribute at the off value, which is the
    state [apagar] leads to: calling [apagar] on it changes nothing. *)
Theorem C9_recien_construido (c : Clase) (id : Z) (d : Dispositivo) :
  instanciar c id = inr (Obj_dispositivo d) →
  estado (parte_base d) = false ∧
  obtener_estado d = "Apagado" ∧
  en_reposo d ∧
  obtener_id d = id ∧
  apagar d = d.
Proof.
  destruct c; vm_compute; intros Hd; try discriminate;
    injection Hd as <-; by repeat split.
Qed.

Lemma C9_recien_construido_witness :
  instanciar C_SensorMovimiento 5 = inr (Obj_dispositivo (SensorMovimiento_init 5)) ∧
  apagar (SensorMovimiento_init 5) = SensorMovimiento_init 5.
Proof.
  split; [reflexivity |].
  apply (C9_recien_construido C_SensorMovimiento 5 (SensorMovimiento_init 5)).
  reflexivity.
Defined.

(** ** The script

    One run of [main] on a tape: the first loop draws 37, 5 and 0 (67%, 35%
    and a detected motion), the scene fires and draws again for both
    lights from the exhausted tape. *)

Example main_con_movimiento :
  map_to_list (objetos (main (mundo_inicial ([37; 5; 0]%Z : Cinta))).2) ≡ₚ
  [ (0, LuzInteligente {| id_dispositivo := 1; estado := true |} 30);
    (1, LuzInteligente {| id_dispositivo := 2; estado := true |} 30);
    (2, CamaraSeguridad {| id_dispositivo := 3; estado := true |} true);
    (3, CamaraSeguridad {| id_dispositivo := 4; estado := true |} true);
    (4, SensorMovimiento {| id_dispositivo := 5; estado := true |} true) ].
Proof. vm_compute. by apply (bool_decide_unpack _). Qed.

Example main_sin_movimiento :
  salida (main (mundo_inicial ([37; 5; 1]%Z : Cinta))).2 =
  "🏠 Simulación de Casa Inteligente 🏠


📋 ESTADO ACTUAL DE LOS DISPOSITIVOS:
   [LuzInteligente #1] Estado: Encendido | Intensidad: 67%
   [LuzInteligente #2] Estado: Encendido | Intensidad: 35%
   [CamaraSeguridad #3] Estado: Encendido | Grabando: True
   [CamaraSeguridad #4] Estado: Encendido | Grabando: True
   [SensorMovimiento #5] Estado: Encendido | Movimiento detectado: False

🤖 Ejecutando escena automática...

✅ No se detectó movimiento. La casa permanece en modo reposo.

📋 ESTADO ACTUAL DE LOS DISPOSITIVOS:
   [LuzInteligente #1] Estado: Encendido | Intensidad: 67%
   [LuzInteligente #2] Estado: Encendido | Intensidad: 35%
   [CamaraSeguridad #3] Estado: Encendido | Grabando: True
   [CamaraSeguridad #4] Estado: Encendido | Grabando: True
   [SensorMovimiento #5] Estado: Encendido | Movimiento detectado: False

🏁 Fin de la simulación 🏁
".
Proof. vm_compute. reflexivity. Qed.

(** ** The scene *)

Lemma isinstance_tupla_clase (d d' : Dispositivo) (cs : list Clase) :
  clase_de d' = clase_de d → isinstance_tupla d' cs = isinstance_tupla d cs.
Proof. intros Hc. unfold isinstance_tupla, isinstance. by rewrite Hc. Qed.

Lemma sensor_con_movimiento_true (d : Dispositivo) :
  sensor_con_movimiento d = true ↔ ∃ b, d = SensorMovimiento b true.
Proof.
  split.
  - destruct d as [b i|b g|b m]; try discriminate.
    unfold sensor_con_movimiento; simpl. intros ->. eauto.
  - by intros [b ->].
Qed.

Lemma any_true {A} (p : A → bool) (l : list A) :
  any p l = true ↔ ∃ x, x ∈ l ∧ p x = true.
Proof.
  induction l as [|y l IH]; simpl.
  - split; [discriminate | intros (x & Hx & _); by apply elem_of_nil in Hx].
  - destruct (p y) eqn:Hy.
    + split; [| done]. intros _. exists y. split; [left | done].
    + rewrite IH. split.
      * intros (x & Hx & Hp). exists x. split; [by right | done].
      * intros (x & Hx & Hp). apply elem_of_cons in Hx as [-> | Hx]; [congruence |].
        eauto.
Qed.

Lemma hay_movimiento_true {G} (casa : CasaInteligente) (w : Mundo G) :
  hay_movimiento casa w = true ↔
  ∃ r b, r ∈ dispositivos casa ∧ objetos w !! r = Some (SensorMovimiento b true).
Proof.
  unfold hay_movimiento. rewrite any_true. split.
  - intros (r & Hr & Hp). destruct (objetos w !! r) as [d|] eqn:Hd; [| discriminate].
    apply sensor_con_movimiento_true in Hp as [b ->]. eauto.
  - intros (r & b & Hr & Hd). exists r. by rewrite Hd.
Qed.

Section Bucle.
Context `{RandomSource G}.

Lemma paso_escena (x : nat) (w : Mundo G) :
  let w1 := (encender_si_luz_o_camara x w).2 in
  salida w1 = salida w ∧
  (∀ r, r ≠ x → objetos w1 !! r = objetos w !! r) ∧
  match objetos w !! x with
  | Some d =>
      if isinstance_tupla d [C_LuzInteligente; C_CamaraSeguridad]
      then ∃ d1, objetos w1 !! x = Some d1 ∧ resultado_encender d d1
      else w1 = w
  | None => w1 = w
  end.
Proof.
  unfold encender_si_luz_o_camara, leer, mbind, M_bind, llamar_encender; simpl.
  destruct (objetos w !! x) as [d|] eqn:Hd; [| done].
  destruct (isinstance_tupla d _) eqn:Hi; [| done].
  rewrite Hd.
  pose proof (encender_resultado d (azar w)) as Hr.
  destruct (encender d (azar w)) as [d1 g1]; simpl in *.
  split; [done |]. split.
  - intros r Hr'. by rewrite lookup_insert_ne.
  - exists d1. by rewrite lookup_insert_eq.
Qed.

Lemma paso_escena_llamar (x : nat) (w : Mundo G) :
  encender_si_luz_o_camara x w =
  if luz_o_camara_en (objetos w) x then llamar_encender x w else (tt, w).
Proof.
  unfold encender_si_luz_o_camara, luz_o_camara_en, leer, mbind, M_bind; simpl.
  destruct (objetos w !! x) as [d|]; [| done].
  by destruct (isinstance_tupla d _).
Qed.

Lemma paso_escena_clases (x : nat) (w : Mundo G) (r : nat) :
  luz_o_camara_en (objetos (encender_si_luz_o_camara x w).2) r =
  luz_o_camara_en (objetos w) r.
Proof.
  destruct (paso_escena x w) as (_ & Hne & Hx).
  unfold luz_o_camara_en.
  destruct (decide (r = x)) as [-> | Hr]; [| by rewrite Hne].
  destruct (objetos w !! x) as [d|] eqn:Hd; [| by rewrite Hx, Hd].
  destruct (isinstance_tupla d _) eqn:Hi; [| by rewrite Hx, Hd, Hi].
  destruct Hx as (d1 & -> & Hr).
  rewrite <- Hi. by apply isinstance_tupla_clase, resultado_encender_clase.
Qed.

Lemma bucle_escena (l : list nat) (w : Mundo G) :
  let w' := (for_each encender_si_luz_o_camara l w).2 in
  salida w' = salida w ∧ tras_bucle l (objetos w) (objetos w').
Proof.
  revert w. induction l as [|x l IH]; intros w; simpl.
  - split; [done |]. intros r. by destruct (objetos w !! r).
  - unfold mbind, M_bind.
    destruct (encender_si_luz_o_camara x w) as [[] w1] eqn:Hw1.
    destruct (paso_escena x w) as (Hs & Hne & Hx). rewrite Hw1 in Hs, Hne, Hx.
    simpl in Hs, Hne, Hx.
    destruct (IH w1) as [Hs' Hrel]. split; [congruence |].
    intros r. specialize (Hrel r).
    destruct (decide (r = x)) as [-> | Hr].
    + rewrite bool_decide_eq_true_2 by left. simpl.
      destruct (objetos w !! x) as [d|] eqn:Hd; [| subst w1; by rewrite Hd in Hrel].
      destruct (isinstance_tupla d _) eqn:Hi.
      * destruct Hx as (d1 & Hd1 & Hr1). rewrite Hd1 in Hrel.
        rewrite (isinstance_tupla_clase d d1), Hi in Hrel
          by by apply resultado_encender_clase.
        rewrite andb_true_r in Hrel. case_bool_decide.
        -- destruct Hrel as (d' & Hd' & Hr'). exists d'. split; [done |].
           by eapply resultado_encender_trans.
        -- eauto.
      * subst w1. by rewrite Hd, Hi, andb_false_r in Hrel.
    + rewrite Hne in Hrel by done.
      destruct (objetos w !! r) as [d|]; [| done].
      rewrite (bool_decide_ext (r ∈ x :: l) (r ∈ l)); [done |].
      rewrite elem_of_cons. split; [by intros [? | ?] | by right].
Qed.

Lemma bucle_escena_filter (l : list nat) (w : Mundo G) :
  for_each encender_si_luz_o_camara l w =
  for_each llamar_encender (List.filter (luz_o_camara_en (objetos w)) l) w.
Proof.
  revert w. induction l as [|x l IH]; intros w; [done |].
  simpl. unfold mbind, M_bind.
  pose proof (paso_escena_clases x w) as Hcl.
  rewrite paso_escena_llamar in *.
  destruct (luz_o_camara_en (objetos w) x); simpl.
  - unfold mbind, M_bind.
    destruct (llamar_encender x w) as [[] w1]; simpl in *.
    rewrite IH. f_equal. apply List.filter_ext. exact Hcl.
  - apply IH.
Qed.

End Bucle.

Section Escena_props.
Context `{RandomSource G}.

Lemma ejecutar_escena_eq (casa : CasaInteligente) (w : Mundo G) :
  ejecutar_escena casa w =
  let w0 := (print [aviso_inicio] w).2 in
  if hay_movimiento casa w
  then for_each encender_si_luz_o_camara (dispositivos casa)
         (print [aviso_movimiento] w0).2
  else print [aviso_reposo] w0.
Proof.
  unfold ejecutar_escena, mbind, M_bind; simpl.
  unfold hay_movimiento; simpl.
  by destruct (any _ _).
Qed.

Lemma escena_con_movimiento (casa : CasaInteligente) (w : Mundo G) :
  hay_movimiento casa w = true →
  let w' := (ejecutar_escena casa w).2 in
  w' = (for_each encender_si_luz_o_camara (dispositivos casa)
          (print [aviso_movimiento] (print [aviso_inicio] w).2).2).2 ∧
  tras_bucle (dispositivos casa) (objetos w) (objetos w').
Proof.
  intros Hhay w'. subst w'. rewrite ejecutar_escena_eq, Hhay. cbv zeta.
  split; [done |].
  by destruct (bucle_escena (dispositivos casa)
                 (print [aviso_movimiento] (print [aviso_inicio] w).2).2) as [_ Hrel].
Qed.

(** C1: [ejecutar_escena] takes [hay_movimiento] to be true exactly when
    some device of the house is a motion sensor whose
    [movimiento_detectado] is true, read off the store as it is before
    anything is changed.  When it is true, [encender] is called on exactly
    the references of the house that denote lights or cameras, in house
    order: every such light ends powered with a brightness between 30 and
    100, every such camera ends powered and recording (whatever their
    state was before), every other object of the store is left as it was,
    and the motion check still answers true afterwards. *)
Theorem C1_escena_con_movimiento (casa : CasaInteligente) (w : Mundo G) :
  let w' := (ejecutar_escena casa w).2 in
  (hay_movimiento casa w = true ↔
   ∃ r b, r ∈ dispositivos casa ∧ objetos w !! r = Some (SensorMovimiento b true)) ∧
  (hay_movimiento casa w = true →
   w' = (for_each llamar_encender
           (List.filter (luz_o_camara_en (objetos w)) (dispositivos casa))
           (print [aviso_movimiento] (print [aviso_inicio] w).2).2).2 ∧
   (∀ r, match objetos w !! r with
         | Some (LuzInteligente b i) =>
             if bool_decide (r ∈ dispositivos casa)
             then ∃ k, (30 ≤ k ≤ 100)%Z ∧
                       objetos w' !! r =
                       Some (LuzInteligente
                               {| id_dispositivo := id_dispositivo b; estado := true |} k)
             else objetos w' !! r = Some (LuzInteligente b i)
         | Some (CamaraSeguridad b g) =>
             if bool_decide (r ∈ dispositivos casa)
             then objetos w' !! r =
                  Some (CamaraSeguridad
                          {| id_dispositivo := id_dispositivo b; estado := true |} true)
             else objetos w' !! r = Some (CamaraSeguridad b g)
         | other => objetos w' !! r = other
         end) ∧
   hay_movimiento casa w' = true).
Proof.
  intros w'. split; [apply hay_movimiento_true |].
  intros Hhay. destruct (escena_con_movimiento casa w Hhay) as [Hw' Hrel].
  fold w' in Hw', Hrel.
  split; [| split].
  - by rewrite Hw', bucle_escena_filter.
  - intros r. specialize (Hrel r).
    destruct (objetos w !! r) as [[b i|b g|b m]|]; simpl in Hrel; try done.
    + rewrite andb_true_r in Hrel.
      case_bool_decide; [| done].
      destruct Hrel as (d' & Hd' & k & Hk & ->). eauto.
    + rewrite andb_true_r in Hrel.
      case_bool_decide; [| done].
      by destruct Hrel as (d' & Hd' & ->).
    + by rewrite andb_false_r in Hrel.
  - apply hay_movimiento_true.
    apply hay_movimiento_true in Hhay as (r & b & Hr & Hd).
    exists r, b. split; [done |].
    specialize (Hrel r). rewrite Hd in Hrel.
    by rewrite andb_false_r in Hrel.
Qed.

Lemma escena_sin_movimiento (casa : CasaInteligente) (w : Mundo G) :
  hay_movimiento casa w = false →
  (ejecutar_escena casa w).2 = (print [aviso_reposo] (print [aviso_inicio] w).2).2.
Proof. intros Hhay. by rewrite ejecutar_escena_eq, Hhay. Qed.

(** C2: when no motion sensor of the house has [movimiento_detectado]
    true, [ejecutar_escena] only prints its two lines: the store, hence the
    state of every device, and the random source are unchanged. *)
Theorem C2_escena_sin_movimiento (casa : CasaInteligente) (w : Mundo G) :
  (∀ r b, r ∈ dispositivos casa → objetos w !! r ≠ Some (SensorMovimiento b true)) →
  let w' := (ejecutar_escena casa w).2 in
  objetos w' = objetos w ∧ azar w' = azar w ∧
  salida w' = (salida w +:+ aviso_inicio +:+ nl) +:+ aviso_reposo +:+ nl.
Proof.
  intros Hno w'. subst w'.
  rewrite escena_sin_movimiento; [done |].
  apply not_true_is_false. rewrite hay_movimiento_true.
  intros (r & b & Hr & Hd). by eapply Hno.
Qed.

(** C10: [ejecutar_escena] never changes a motion sensor: whether or not
    the scene fires, every sensor of the store keeps its inherited part and
    its [movimiento_detectado]. *)
Theorem C10_sensores_intactos (casa : CasaInteligente) (w : Mundo G)
    (r : nat) (b : Dispositivo_base) (m : bool) :
  objetos w !! r = Some (SensorMovimiento b m) →
  objetos (ejecutar_escena casa w).2 !! r = Some (SensorMovimiento b m).
Proof.
  intros Hd. destruct (hay_movimiento casa w) eqn:Hhay.
  - destruct (escena_con_movimiento casa w Hhay) as [_ Hrel].
    specialize (Hrel r). rewrite Hd in Hrel.
    by rewrite andb_false_r in Hrel.
  - by rewrite escena_sin_movimiento.
Qed.

(** C7: on a house without devices [hay_movimiento] is false, so
    [ejecutar_escena] changes no object, and [mostrar_todos] writes the
    header line and nothing else; a house none of whose devices is a motion
    sensor gets the same answer from the motion check, and its objects are
    left alone as well. *)
Theorem C7_casa_vacia (w : Mundo G) :
  hay_movimiento CasaInteligente_init w = false ∧
  objetos (ejecutar_escena CasaInteligente_init w).2 = objetos w ∧
  azar (ejecutar_escena CasaInteligente_init w).2 = azar w ∧
  (mostrar_todos CasaInteligente_init w).2 =
    {| objetos := objetos w; azar := azar w;
       salida := salida w +:+ cabecera +:+ nl |} ∧
  (∀ casa,
     (∀ r d, r ∈ dispositivos casa → objetos w !! r = Some d →
             clase_de d ≠ C_SensorMovimiento) →
     hay_movimiento casa w = hay_movimiento CasaInteligente_init w ∧
     objetos (ejecutar_escena casa w).2 = objetos w).
Proof.
  split; [done |]. split; [done |]. split; [done |]. split; [done |].
  intros casa Hno.
  assert (Hhay : hay_movimiento casa w = false).
  { apply not_true_is_false. rewrite hay_movimiento_true.
    intros (r & b & Hr & Hd). by eapply Hno. }
  split; [done |]. by rewrite escena_sin_movimiento.
Qed.

End Escena_props.

Lemma C1_escena_con_movimiento_witness :
  hay_movimiento casa_ejemplo (mundo_ejemplo true [12%Z]) = true ∧
  objetos (ejecutar_escena casa_ejemplo (mundo_ejemplo true [12%Z])).2 !! 1 =
  Some (CamaraSeguridad {| id_dispositivo := 3; estado := true |} true).
Proof.
  split; [reflexivity |].
  destruct (C1_escena_con_movimiento casa_ejemplo (mundo_ejemplo true [12%Z]))
    as [_ Hsi].
  destruct (Hsi eq_refl) as (_ & Hobj & _).
  exact (Hobj 1).
Defined.

Lemma C2_escena_sin_movimiento_witness :
  (∀ r b, r ∈ [2] →
          ({[2 := SensorMovimiento_init 5]} : gmap nat Dispositivo) !! r
          ≠ Some (SensorMovimiento b true)) ∧
  objetos (ejecutar_escena {| dispositivos := [2] |}
             {| objetos := {[2 := SensorMovimiento_init 5]};
                azar := ([] : Cinta); salida := "" |}).2
  = {[2 := SensorMovimiento_init 5]}.
Proof.
  assert (Hno : ∀ r b, r ∈ [2] →
            ({[2 := SensorMovimiento_init 5]} : gmap nat Dispositivo) !! r
            ≠ Some (SensorMovimiento b true)).
  { intros r b Hr. apply list_elem_of_singleton in Hr as ->.
    rewrite lookup_singleton_eq. discriminate. }
  split; [exact Hno |].
  exact (proj1 (C2_escena_sin_movimiento {| dispositivos := [2] |}
                  {| objetos := {[2 := SensorMovimiento_init 5]};
                     azar := ([] : Cinta); salida := "" |} Hno)).
Defined.

Lemma C10_sensores_intactos_witness :
  objetos (mundo_ejemplo true [12%Z]) !! 2 =
    Some (SensorMovimiento {| id_dispositivo := 5; estado := true |} true) ∧
  hay_movimiento casa_ejemplo (mundo_ejemplo true [12%Z]) = true ∧
  objetos (ejecutar_escena casa_ejemplo (mundo_ejemplo true [12%Z])).2 !! 2 =
    Some (SensorMovimiento {| id_dispositivo := 5; estado := true |} true).
Proof.
  split; [reflexivity |]. split; [reflexivity |].
  apply (C10_sensores_intactos casa_ejemplo (mundo_ejemplo true [12%Z])).
  reflexivity.
Defined.

Lemma C7_casa_vacia_witness :
  let w := mundo_ejemplo true [12%Z] in
  let casa := {| dispositivos := [0; 1] |} in
  (∀ r d, r ∈ dispositivos casa → objetos w !! r = Some d →
          clase_de d ≠ C_SensorMovimiento) ∧
  hay_movimiento casa w = false ∧
  objetos (ejecutar_escena casa w).2 = objetos w.
Proof.
  intros w casa.
  assert (Hno : ∀ r d, r ∈ dispositivos casa → objetos w !! r = Some d →
                       clase_de d ≠ C_SensorMovimiento).
  { intros r d Hr Hd. simpl in Hr.
    apply elem_of_cons in Hr as [-> | Hr];
      [| apply list_elem_of_singleton in Hr as ->];
      vm_compute in Hd; injection Hd as <-; discriminate. }
  split; [exact Hno |].
  destruct (C7_casa_vacia w) as (_ & _ & _ & _ & Hsin).
  exact (Hsin casa Hno).
Defined.

(** ** Who changes [estado] *)

Lemma resultado_encender_grabando (d d' : Dispositivo) :
  resultado_encender d d' → grabando_segun_estado d'.
Proof.
  destruct d as [b i|b g|b m]; simpl.
  - by intros (k & _ & ->).
  - by intros ->.
  - by intros (m' & ->).
Qed.

Lemma mostrar_uno_objetos {G} (r : nat) (w : Mundo G) :
  objetos (mostrar_uno r w).2 = objetos w ∧ azar (mostrar_uno r w).2 = azar w.
Proof.
  unfold mostrar_uno, mbind, M_bind, leer.
  by destruct (objetos w !! r).
Qed.

Lemma bucle_mostrar_objetos {G} (l : list nat) (w : Mundo G) :
  objetos (for_each mostrar_uno l w).2 = objetos w ∧
  azar (for_each mostrar_uno l w).2 = azar w.
Proof.
  revert w. induction l as [|x l IH]; intros w; [done |].
  simpl. unfold mbind, M_bind.
  destruct (mostrar_uno_objetos x w) as [Ho Ha].
  destruct (mostrar_uno x w) as [[] w1]; simpl in *.
  destruct (IH w1) as [-> ->]. done.
Qed.

Lemma mostrar_todos_objetos {G} (casa : CasaInteligente) (w : Mundo G) :
  objetos (mostrar_todos casa w).2 = objetos w ∧ azar (mostrar_todos casa w).2 = azar w.
Proof.
  unfold mostrar_todos, mbind, M_bind; simpl.
  by destruct (bucle_mostrar_objetos (dispositivos casa)
                 {| objetos := objetos w; azar := azar w;
                    salida := salida w +:+ cabecera +:+ nl |}) as [-> ->].
Qed.

Section Estado.
Context `{RandomSource G}.

Lemma estado_tras_llamada (c : Llamada) (d : Dispositivo) (g : G) :
  estado (parte_base (tras_llamada c d g).1) =
  match c with
  | Ll_encender => true
  | Ll_apagar => false
  | Ll_cambiar_estado nuevo => nuevo
  | Ll_mostrar_datos | Ll_obtener_estado | Ll_obtener_id => estado (parte_base d)
  end.
Proof.
  destruct c; simpl; try done.
  - by destruct (resultado_encender_estado _ _ (encender_resultado d g)).
  - by destruct d.
  - by destruct d.
Qed.

Lemma escena_objeto (casa : CasaInteligente) (w : Mundo G) (r : nat) :
  match objetos w !! r with
  | Some d =>
      objetos (ejecutar_escena casa w).2 !! r = Some d ∨
      ∃ d', objetos (ejecutar_escena casa w).2 !! r = Some d' ∧
            r ∈ dispositivos casa ∧
            isinstance_tupla d [C_LuzInteligente; C_CamaraSeguridad] = true ∧
            resultado_encender d d'
  | None => objetos (ejecutar_escena casa w).2 !! r = None
  end.
Proof.
  destruct (hay_movimiento casa w) eqn:Hhay.
  - destruct (escena_con_movimiento casa w Hhay) as [_ Hrel].
    specialize (Hrel r). destruct (objetos w !! r) as [d|]; [| done].
    case_bool_decide; simpl in Hrel; [| by left].
    destruct (isinstance_tupla d _) eqn:Hi; [| by left].
    destruct Hrel as (d' & Hd' & Hr). right. eauto.
  - rewrite escena_sin_movimiento by done. simpl.
    destruct (objetos w !! r); [by left | done].
Qed.

(** C3: the power state lives in a name-mangled attribute that
    is written by the constructor and by the public method
    [cambiar_estado] only.  Of the public methods of a device, the ones
    after which it can differ are [encender] (which leaves it true),
    [apagar] (which leaves it false) and [cambiar_estado nuevo] (which
    leaves it [nuevo]); the reading methods keep it.  The house never calls
    [cambiar_estado] itself: [mostrar_todos] changes no object, and an
    object changed by [ejecutar_escena] is a light or camera of the house
    on which [encender] was called. *)
Theorem C3_quien_cambia_estado :
  (∀ (c : Llamada) (d : Dispositivo) (g : G),
     let d' := (tras_llamada c d g).1 in
     estado (parte_base d') =
       match c with
       | Ll_encender => true
       | Ll_apagar => false
       | Ll_cambiar_estado nuevo => nuevo
       | Ll_mostrar_datos | Ll_obtener_estado | Ll_obtener_id => estado (parte_base d)
       end ∧
     (estado (parte_base d') ≠ estado (parte_base d) →
      c = Ll_encender ∨ c = Ll_apagar ∨ c = Ll_cambiar_estado (estado (parte_base d')))) ∧
  (∀ (casa : CasaInteligente) (w : Mundo G),
     objetos (mostrar_todos casa w).2 = objetos w ∧
     ∀ r d d',
       objetos w !! r = Some d →
       objetos (ejecutar_escena casa w).2 !! r = Some d' →
       d' ≠ d →
       r ∈ dispositivos casa ∧
       isinstance_tupla d [C_LuzInteligente; C_CamaraSeguridad] = true ∧
       resultado_encender d d').
Proof.
  split.
  - intros c d g d'. subst d'. split; [apply estado_tras_llamada |].
    rewrite estado_tras_llamada. destruct c; try done; auto.
  - intros casa w. split; [apply mostrar_todos_objetos |].
    intros r d d' Hd Hd' Hne.
    pose proof (escena_objeto casa w r) as Hobj. rewrite Hd in Hobj.
    destruct Hobj as [Hsame | (d'' & Hd'' & Hr & Hi & Hres)]; [congruence |].
    rewrite Hd' in Hd''. by injection Hd'' as <-.
Qed.

(** C4: for a camera [grabando] equals the power state at
    construction and after every [encender] (both true) and [apagar] (both
    false), from any starting state; every public method other than
    [cambiar_estado] preserves the equality, and so do [ejecutar_escena]
    and [mostrar_todos] for all the cameras of the store. *)
Theorem C4_grabando_segun_estado :
  (∀ id, grabando_segun_estado (CamaraSeguridad_init id)) ∧
  (∀ b gr (g : G),
     (encender (CamaraSeguridad b gr) g).1 =
       CamaraSeguridad {| id_dispositivo := id_dispositivo b; estado := true |} true ∧
     apagar (CamaraSeguridad b gr) =
       CamaraSeguridad {| id_dispositivo := id_dispositivo b; estado := false |} false) ∧
  (∀ (c : Llamada) (d : Dispositivo) (g : G),
     (∀ nuevo, c ≠ Ll_cambiar_estado nuevo) →
     grabando_segun_estado d →
     grabando_segun_estado (tras_llamada c d g).1) ∧
  (∀ (casa : CasaInteligente) (w : Mundo G),
     (∀ r d, objetos w !! r = Some d → grabando_segun_estado d) →
     ∀ r d,
       (objetos (ejecutar_escena casa w).2 !! r = Some d ∨
        objetos (mostrar_todos casa w).2 !! r = Some d) →
       grabando_segun_estado d).
Proof.
  split; [done |]. split; [done |]. split.
  - intros c d g Hc Hinv. destruct c; simpl; try done.
    + eapply resultado_encender_grabando, encender_resultado.
    + by destruct d.
    + by destruct (Hc nuevo_estado).
  - intros casa w Hinv r d [Hd | Hd].
    + pose proof (escena_objeto casa w r) as Hobj.
      destruct (objetos w !! r) as [d0|] eqn:Hd0; [| congruence].
      destruct Hobj as [Hsame | (d'' & Hd'' & _ & _ & Hres)].
      * rewrite Hsame in Hd. injection Hd as <-. by eapply Hinv.
      * rewrite Hd'' in Hd. injection Hd as <-.
        by eapply resultado_encender_grabando.
    + destruct (mostrar_todos_objetos casa w) as [Ho _].
      rewrite Ho in Hd. by eapply Hinv.
Qed.

End Estado.

(** C3 with [encender] and [apagar] as the only writers does not hold:
    [cambiar_estado] is a public method, and a caller can use it to power
    a light without either of them; the outcome, a powered light of
    brightness 0, is one that neither of the two can produce. *)
Lemma C3_counterexample :
  (tras_llamada (Ll_cambiar_estado true) (LuzInteligente_init 1) ([] : Cinta)).1 =
    LuzInteligente {| id_dispositivo := 1; estado := true |} 0 ∧
  ¬ (∀ (c : Llamada) (d : Dispositivo) (g : Cinta),
       estado (parte_base (tras_llamada c d g).1) ≠ estado (parte_base d) →
       c = Ll_encender ∨ c = Ll_apagar).
Proof.
  split; [reflexivity |].
  intros Hsolo.
  destruct (Hsolo (Ll_cambiar_estado true) (LuzInteligente_init 1) []) as [Hc | Hc];
    [simpl; discriminate | discriminate Hc | discriminate Hc].
Qed.

(** C4 for every operation does not hold: after [cambiar_estado(True)] on a
    new camera the camera is powered and not recording. *)
Lemma C4_counterexample :
  (tras_llamada (Ll_cambiar_estado true) (CamaraSeguridad_init 3) ([] : Cinta)).1 =
    CamaraSeguridad {| id_dispositivo := 3; estado := true |} false ∧
  grabando_segun_estado (CamaraSeguridad_init 3) ∧
  ¬ grabando_segun_estado
      (tras_llamada (Ll_cambiar_estado true) (CamaraSeguridad_init 3) ([] : Cinta)).1.
Proof.
  split; [reflexivity |]. split; [reflexivity |]. simpl. discriminate.
Qed.

Lemma C3_quien_cambia_estado_witness :
  let w := mundo_ejemplo true [12%Z] in
  objetos w !! 0 = Some (LuzInteligente_init 1) ∧
  objetos (ejecutar_escena casa_ejemplo w).2 !! 0 =
    Some (LuzInteligente {| id_dispositivo := 1; estado := true |} 42) ∧
  resultado_encender (LuzInteligente_init 1)
    (LuzInteligente {| id_dispositivo := 1; estado := true |} 42).
Proof.
  intros w.
  assert (Hd : objetos w !! 0 = Some (LuzInteligente_init 1)) by reflexivity.
  assert (Hd' : objetos (ejecutar_escena casa_ejemplo w).2 !! 0 =
                Some (LuzInteligente {| id_dispositivo := 1; estado := true |} 42))
    by (vm_compute; reflexivity).
  split; [exact Hd |]. split; [exact Hd' |].
  destruct (C3_quien_cambia_estado (G := Cinta)) as [_ Hcasa].
  destruct (Hcasa casa_ejemplo w) as [_ Hescena].
  apply (Hescena 0 _ _ Hd Hd'). discriminate.
Defined.

Lemma C4_grabando_segun_estado_witness :
  let w := mundo_ejemplo true [12%Z] in
  (∀ r d, objetos w !! r = Some d → grabando_segun_estado d) ∧
  grabando_segun_estado (CamaraSeguridad {| id_dispositivo := 3; estado := true |} true) ∧
  grabando_segun_estado (tras_llamada Ll_apagar (CamaraSeguridad_init 3) [12%Z]).1.
Proof.
  intros w.
  assert (Hinv : ∀ r d, objetos w !! r = Some d → grabando_segun_estado d).
  { intros r d Hd. unfold w in Hd; simpl in Hd; unfold objetos_ejemplo in Hd.
    repeat (rewrite lookup_insert in Hd; case_decide; [by injection Hd as <- |]).
    by rewrite lookup_empty in Hd. }
  destruct (C4_grabando_segun_estado (G := Cinta)) as (_ & _ & Hll & Hcasa).
  split; [exact Hinv |]. split.
  - apply (Hcasa casa_ejemplo w Hinv 1). left. reflexivity.
  - apply Hll; [discriminate | reflexivity].
Defined.

(** * Further properties of the code *)

(** ** Power cycles *)

Section Ciclos.
Context `{RandomSource G}.

Lemma encender_segun_identidad (d d' : Dispositivo) (g : G) :
  identidad d = identidad d' → encender d g = encender d' g.
Proof.
  unfold identidad, obtener_id.
  destruct d as [[id e] i|[id e] gr|[id e] m], d' as [[id' e'] i'|[id' e'] gr'|[id' e'] m'];
    simpl; intros [= ->]; try done.
Qed.

Lemma apagar_segun_identidad (d d' : Dispositivo) :
  identidad d = identidad d' → apagar d = apagar d'.
Proof.
  unfold identidad, obtener_id.
  destruct d as [[id e] i|[id e] gr|[id e] m], d' as [[id' e'] i'|[id' e'] gr'|[id' e'] m'];
    simpl; intros [= ->]; try done.
Qed.

Lemma identidad_encender (d : Dispositivo) (g : G) :
  identidad (encender d g).1 = identidad d.
Proof.
  pose proof (encender_resultado d g) as Hr. unfold identidad.
  rewrite (resultado_encender_clase _ _ Hr).
  by destruct (resultado_encender_estado _ _ Hr) as [_ ->].
Qed.

Lemma identidad_apagar (d : Dispositivo) : identidad (apagar d) = identidad d.
Proof. by destruct d. Qed.

Lemma identidad_cambiar_estado (n : bool) (d : Dispositivo) :
  identidad (cambiar_estado n d) = identidad d.
Proof. by destruct d. Qed.

(** X1: [encender] and [apagar] forget the state they start from: their
    result depends on the class and identifier of the device (and on the
    draw) only.  So a power-off after a power-on is a plain power-off, a
    power-on after a power-off, after another power-on or after
    [cambiar_estado] is a plain power-on, and [apagar] undoes whatever
    [cambiar_estado] did. *)
Theorem X1_ciclos_de_encendido (d : Dispositivo) (g g' : G) (n : bool) :
  apagar (encender d g).1 = apagar d ∧
  encender (apagar d) g = encender d g ∧
  encender (encender d g).1 g' = encender d g' ∧
  encender (cambiar_estado n d) g = encender d g ∧
  apagar (cambiar_estado n d) = apagar d.
Proof.
  repeat split.
  - apply apagar_segun_identidad, identidad_encender.
  - apply encender_segun_identidad, identidad_apagar.
  - apply encender_segun_identidad, identidad_encender.
  - apply encender_segun_identidad, identidad_cambiar_estado.
  - apply apagar_segun_identidad, identidad_cambiar_estado.
Qed.

Lemma choice_true_false (g : G) :
  choice true [false] g =
  (bool_decide ((randbelow 2 g).1 = 0%Z), (randbelow 2 g).2).
Proof.
  unfold choice. simpl length.
  pose proof (randbelow_range 2 g) as Hr.
  change (Z.of_nat 2) with 2%Z.
  destruct (randbelow 2 g) as [i g1]; simpl in *.
  assert (i = 0 ∨ i = 1)%Z as [-> | ->] by lia; reflexivity.
Qed.

(** X2: after [encender] every device answers "Encendido"; a camera is
    recording and no random number was drawn for it; a sensor has
    [movimiento_detectado] true exactly when [_randbelow(2)] drew 0 (the
    first element of [[True, False]]), whatever it held before; a light has
    brightness 30 plus the draw of [_randbelow(71)]. *)
Theorem X2_encender_por_variante (d : Dispositivo) (g : G) :
  obtener_estado (encender d g).1 = "Encendido" ∧
  match d with
  | LuzInteligente b _ =>
      encender d g =
      (LuzInteligente (cambiar_estado_base true b) (30 + (randbelow 71 g).1),
       (randbelow 71 g).2)
  | CamaraSeguridad b _ =>
      encender d g = (CamaraSeguridad (cambiar_estado_base true b) true, g)
  | SensorMovimiento b _ =>
      encender d g =
      (SensorMovimiento (cambiar_estado_base true b)
         (bool_decide ((randbelow 2 g).1 = 0%Z)),
       (randbelow 2 g).2)
  end.
Proof.
  split.
  - pose proof (encender_resultado d g) as Hr.
    unfold obtener_estado.
    by destruct (resultado_encender_estado _ _ Hr) as [-> _].
  - destruct d as [b i|b gr|b m]; [| done |].
    + unfold encender, randint; simpl.
      change (100 + 1 - 30)%Z with 71%Z.
      by destruct (randbelow 71 g).
    + unfold encender; simpl. by rewrite choice_true_false.
Qed.

End Ciclos.

(** Both answers of a sensor occur. *)
Example sensor_ambos_resultados :
  (encender (SensorMovimiento_init 5) ([4%Z] : Cinta)).1 =
    SensorMovimiento {| id_dispositivo := 5; estado := true |} true ∧
  (encender (SensorMovimiento_init 5) ([7%Z] : Cinta)).1 =
    SensorMovimiento {| id_dispositivo := 5; estado := true |} false.
Proof. split; reflexivity. Qed.

(** ** Classes *)


(** ** What the operations keep *)

Lemma llamar_apagar_objeto {G} (r0 r : nat) (w : Mundo G) :
  objetos (llamar_apagar r0 w).2 !! r =
  if decide (r0 = r) then apagar <$> objetos w !! r else objetos w !! r.
Proof.
  unfold llamar_apagar. destruct (objetos w !! r0) as [d|] eqn:Hd; simpl.
  - rewrite lookup_insert. case_decide; [subst; by rewrite Hd | done].
  - case_decide; [subst; by rewrite Hd | done].
Qed.

Lemma resultado_encender_identidad (d d' : Dispositivo) :
  resultado_encender d d' → identidad d' = identidad d.
Proof.
  intros Hr. unfold identidad. rewrite (resultado_encender_clase _ _ Hr).
  by destruct (resultado_encender_estado _ _ Hr) as [_ ->].
Qed.

Lemma resultado_encender_coherente (d d' : Dispositivo) :
  resultado_encender d d' → coherente d'.
Proof.
  destruct d as [b i|b g|b m]; simpl.
  - by intros (k & Hk & ->).
  - by intros ->.
  - by intros (m' & ->).
Qed.

Lemma es_luz_en_identidad (m m' : gmap nat Dispositivo) (r : nat) :
  identidad <$> m' !! r = identidad <$> m !! r → es_luz_en m' r = es_luz_en m r.
Proof.
  unfold es_luz_en, identidad.
  destruct (m !! r) as [[]|], (m' !! r) as [[]|]; simpl; by intros [=].
Qed.

Section Conserva.
Context `{RandomSource G}.

Lemma llamar_encender_objeto (r0 r : nat) (w : Mundo G) :
  objetos (llamar_encender r0 w).2 !! r =
  if decide (r0 = r)
  then (λ d, (encender d (azar w)).1) <$> objetos w !! r
  else objetos w !! r.
Proof.
  unfold llamar_encender. destruct (objetos w !! r0) as [d|] eqn:Hd; simpl.
  - destruct (encender d (azar w)) as [d' g'] eqn:He; simpl.
    rewrite lookup_insert. case_decide; [subst; rewrite Hd; simpl; by rewrite He | done].
  - case_decide; [subst; by rewrite Hd | done].
Qed.

Lemma escena_identidad (casa : CasaInteligente) (w : Mundo G) (r : nat) :
  identidad <$> objetos (ejecutar_escena casa w).2 !! r = identidad <$> objetos w !! r.
Proof.
  pose proof (escena_objeto casa w r) as Hobj.
  destruct (objetos w !! r) as [d|]; [| by rewrite Hobj].
  destruct Hobj as [-> | (d' & -> & _ & _ & Hr)]; [done |].
  simpl. by rewrite (resultado_encender_identidad _ _ Hr).
Qed.

(** X4: the class and the identifier of a device never change, and no
    object appears in or disappears from the store: this holds for every
    public method, for [encender] and [apagar] called through a reference,
    and for [ejecutar_escena] and [mostrar_todos]. *)
Theorem X4_identidad_inmutable :
  (∀ (c : Llamada) (d : Dispositivo) (g : G),
     identidad (tras_llamada c d g).1 = identidad d) ∧
  (∀ (r0 r : nat) (w : Mundo G),
     identidad <$> objetos (llamar_encender r0 w).2 !! r = identidad <$> objetos w !! r ∧
     identidad <$> objetos (llamar_apagar r0 w).2 !! r = identidad <$> objetos w !! r) ∧
  (∀ (casa : CasaInteligente) (w : Mundo G) (r : nat),
     identidad <$> objetos (ejecutar_escena casa w).2 !! r = identidad <$> objetos w !! r ∧
     identidad <$> objetos (mostrar_todos casa w).2 !! r = identidad <$> objetos w !! r).
Proof.
  split; [| split].
  - intros c d g. destruct c; simpl; try done.
    + apply identidad_encender.
    + apply identidad_apagar.
    + apply identidad_cambiar_estado.
  - intros r0 r w. rewrite llamar_encender_objeto, llamar_apagar_objeto.
    case_decide; [| done].
    destruct (objetos w !! r) as [d|]; [| done]. simpl.
    by rewrite identidad_encender, identidad_apagar.
  - intros casa w r. split; [apply escena_identidad |].
    by destruct (mostrar_todos_objetos casa w) as [-> _].
Qed.

(** X5: the attributes of a device fit together at construction and after
    every [encender] and [apagar], from any state whatever; a light's
    brightness then lies between 0 and 100; and when this holds for all the
    objects of the store it still holds after [ejecutar_escena]. *)
Theorem X5_estado_coherente :
  (∀ c id d, instanciar c id = inr (Obj_dispositivo d) → coherente d) ∧
  (∀ (d : Dispositivo) (g : G),
     coherente (encender d g).1 ∧ coherente (apagar d)) ∧
  (∀ b i, coherente (LuzInteligente b i) → (0 ≤ i ≤ 100)%Z) ∧
  (∀ (casa : CasaInteligente) (w : Mundo G),
     (∀ r d, objetos w !! r = Some d → coherente d) →
     ∀ r d, objetos (ejecutar_escena casa w).2 !! r = Some d → coherente d).
Proof.
  split; [| split; [| split]].
  - intros c id d. destruct c; vm_compute; intros Hd; try discriminate;
      injection Hd as <-; done.
  - intros d g. split.
    + eapply resultado_encender_coherente, encender_resultado.
    + destruct d as [b i|b gr|b m]; simpl; done.
  - intros b i. simpl. destruct (estado b); lia.
  - intros casa w Hinv r d Hd.
    pose proof (escena_objeto casa w r) as Hobj.
    destruct (objetos w !! r) as [d0|] eqn:Hd0; [| congruence].
    destruct Hobj as [Hsame | (d' & Hd' & _ & _ & Hr)].
    + rewrite Hsame in Hd. injection Hd as <-. by eapply Hinv.
    + rewrite Hd' in Hd. injection Hd as <-.
      by eapply resultado_encender_coherente.
Qed.

End Conserva.

(** ** Running the scene again *)

Section Repetir.
Context `{RandomSource G}.

Lemma escena_sensor (casa : CasaInteligente) (w : Mundo G)
    (r : nat) (b : Dispositivo_base) (m : bool) :
  objetos (ejecutar_escena casa w).2 !! r = Some (SensorMovimiento b m) ↔
  objetos w !! r = Some (SensorMovimiento b m).
Proof.
  pose proof (escena_objeto casa w r) as Hobj.
  destruct (objetos w !! r) as [d|]; [| by rewrite Hobj].
  destruct Hobj as [-> | (d' & -> & _ & Hi & Hr)]; [done |].
  apply resultado_encender_clase in Hr.
  split; intros [= ->].
  - by destruct d.
  - discriminate Hi.
Qed.

Lemma escena_hay_movimiento (casa : CasaInteligente) (w : Mundo G) :
  hay_movimiento casa (ejecutar_escena casa w).2 = hay_movimiento casa w.
Proof.
  apply eq_true_iff_eq. rewrite !hay_movimiento_true.
  split; intros (r & b & Hr & Hd); exists r, b; (split; [done |]).
  - by apply escena_sensor in Hd.
  - by apply escena_sensor.
Qed.

(** X6: the answer of the motion check is the same after the scene as
    before it, so a second run fires exactly when the first did; and the
    second run can change nothing but the brightness of lights: cameras,
    sensors and the power state of every device stay as the first run left
    them. *)
Theorem X6_escena_repetida (casa : CasaInteligente) (w : Mundo G) :
  let w1 := (ejecutar_escena casa w).2 in
  let w2 := (ejecutar_escena casa w1).2 in
  hay_movimiento casa w1 = hay_movimiento casa w ∧
  ∀ r, match objetos w1 !! r with
       | Some (LuzInteligente b i) =>
           ∃ k, objetos w2 !! r = Some (LuzInteligente b k)
       | other => objetos w2 !! r = other
       end.
Proof.
  intros w1 w2. split; [apply escena_hay_movimiento |].
  intros r.
  destruct (hay_movimiento casa w1) eqn:Hhay1.
  - (* both runs fired *)
    assert (Hhay : hay_movimiento casa w = true)
      by (by rewrite <- escena_hay_movimiento).
    destruct (escena_con_movimiento casa w Hhay) as [_ Hrel].
    destruct (escena_con_movimiento casa w1 Hhay1) as [_ Hrel'].
    fold w1 in Hrel. fold w2 in Hrel'.
    specialize (Hrel r). specialize (Hrel' r).
    pose proof (escena_identidad casa w r) as Hid. fold w1 in Hid.
    destruct (objetos w1 !! r) as [d1|] eqn:Hd1; [| done].
    destruct (bool_decide (r ∈ dispositivos casa) &&
              isinstance_tupla d1 [C_LuzInteligente; C_CamaraSeguridad]) eqn:Hsel;
      [| rewrite Hrel'; destruct d1; eauto].
    destruct Hrel' as (d2 & -> & Hres).
    apply andb_true_iff in Hsel as [Hin Hi].
    destruct (objetos w !! r) as [d0|]; [| done].
    injection Hid as Hc _.
    rewrite Hin, (isinstance_tupla_clase d1 d0), Hi in Hrel by done.
    destruct Hrel as (d' & [= <-] & Hres0).
    destruct d0 as [b0 i0|b0 g0|b0 m0]; simpl in Hres0.
    + destruct Hres0 as (k1 & _ & ->). simpl in Hres.
      destruct Hres as (k2 & _ & ->). eauto.
    + subst d1. simpl in Hres. by subst d2.
    + destruct Hres0 as (m1 & ->). simpl in Hres.
      by destruct Hres as (m2 & ->).
  - unfold w2. rewrite escena_sin_movimiento by done. simpl.
    destruct (objetos w1 !! r) as [[b i|b g|b m]|]; eauto.
Qed.

(** ** Random numbers drawn by the scene *)

Lemma paso_escena_azar (x : nat) (w : Mundo G) :
  azar (encender_si_luz_o_camara x w).2 =
  if es_luz_en (objetos w) x then (randint 30 100 (azar w)).2 else azar w.
Proof.
  unfold encender_si_luz_o_camara, es_luz_en, leer, mbind, M_bind, llamar_encender.
  simpl. destruct (objetos w !! x) as [[b i|b g|b m]|] eqn:Hd; simpl; try done.
  - change (isinstance_tupla _ _) with true. cbv iota. rewrite Hd.
    unfold encender; simpl. by destruct (randint 30 100 (azar w)).
  - change (isinstance_tupla _ _) with true. cbv iota. by rewrite Hd.
Qed.

Lemma paso_escena_identidad (x : nat) (w : Mundo G) (r : nat) :
  identidad <$> objetos (encender_si_luz_o_camara x w).2 !! r =
  identidad <$> objetos w !! r.
Proof.
  destruct (paso_escena x w) as (_ & Hne & Hx).
  destruct (decide (r = x)) as [-> | Hr]; [| by rewrite Hne].
  destruct (objetos w !! x) as [d|] eqn:Hd; [| by rewrite Hx, Hd].
  destruct (isinstance_tupla d _); [| by rewrite Hx, Hd].
  destruct Hx as (d1 & -> & Hres). simpl.
  by rewrite (resultado_encender_identidad _ _ Hres).
Qed.

Lemma bucle_escena_azar (l : list nat) (w : Mundo G) :
  azar (for_each encender_si_luz_o_camara l w).2 =
  Nat.iter (length (List.filter (es_luz_en (objetos w)) l))
           (λ g, (randint 30 100 g).2) (azar w).
Proof.
  revert w. induction l as [|x l IH]; intros w; [done |].
  simpl. unfold mbind, M_bind.
  pose proof (paso_escena_azar x w) as Ha.
  pose proof (paso_escena_identidad x w) as Hid.
  destruct (encender_si_luz_o_camara x w) as [[] w1]; simpl in Ha, Hid.
  rewrite IH, Ha.
  rewrite (List.filter_ext _ (es_luz_en (objetos w)))
    by (intros r; apply es_luz_en_identidad, Hid).
  destruct (es_luz_en (objetos w) x); [| done].
  simpl length. by rewrite Nat.iter_succ_r.
Qed.

(** X7: the scene draws one random number per reference of the house
    that denotes a light, a light added twice counting twice, and nothing
    for cameras; an idle scene draws none. *)
Theorem X7_escena_sorteos (casa : CasaInteligente) (w : Mundo G) :
  azar (ejecutar_escena casa w).2 =
  if hay_movimiento casa w
  then Nat.iter (length (List.filter (es_luz_en (objetos w)) (dispositivos casa)))
                (λ g, (randint 30 100 g).2) (azar w)
  else azar w.
Proof.
  rewrite ejecutar_escena_eq. cbv zeta.
  destruct (hay_movimiento casa w); [| done].
  by rewrite bucle_escena_azar.
Qed.

End Repetir.

(** On a tape the scene consumes that many entries. *)
Example escena_gasta_dos :
  azar (ejecutar_escena {| dispositivos := [0; 1; 0; 2] |}
          (mundo_ejemplo true [1; 2; 3; 4]%Z)).2 = [3; 4]%Z.
Proof. reflexivity. Qed.

(** ** What [mostrar_todos] writes *)

Lemma string_app_assoc (s1 s2 s3 : string) :
  (s1 +:+ s2) +:+ s3 = s1 +:+ s2 +:+ s3.
Proof.
  induction s1 as [|c s1 IH]; [done |].
  change (String c ((s1 +:+ s2) +:+ s3) = String c (s1 +:+ s2 +:+ s3)).
  by f_equal.
Qed.

Lemma string_app_nil_r (s : string) : s +:+ "" = s.
Proof.
  induction s as [|c s IH]; [done |].
  change (String c (s +:+ "") = String c s). by f_equal.
Qed.

Lemma unir_app (l1 l2 : list string) : unir (l1 ++ l2) = unir l1 +:+ unir l2.
Proof.
  induction l1 as [|x l1 IH]; simpl; [done |].
  by rewrite IH, string_app_assoc.
Qed.

Lemma mostrar_uno_eq {G} (r : nat) (w : Mundo G) :
  (mostrar_uno r w).2 =
  {| objetos := objetos w; azar := azar w;
     salida := salida w +:+ linea_de (objetos w) r |}.
Proof.
  unfold mostrar_uno, linea_de, mbind, M_bind, leer.
  destruct (objetos w !! r) as [d|]; simpl.
  - done.
  - rewrite string_app_nil_r. by destruct w.
Qed.

Lemma bucle_mostrar_eq {G} (l : list nat) (w : Mundo G) :
  (for_each mostrar_uno l w).2 =
  {| objetos := objetos w; azar := azar w;
     salida := salida w +:+ unir (linea_de (objetos w) <$> l) |}.
Proof.
  revert w. induction l as [|x l IH]; intros w; simpl.
  - rewrite string_app_nil_r. by destruct w.
  - unfold mbind, M_bind.
    pose proof (mostrar_uno_eq x w) as Hx.
    destruct (mostrar_uno x w) as [[] w1]; simpl in Hx. subst w1.
    rewrite IH; simpl. by rewrite string_app_assoc.
Qed.

(** X8: [mostrar_todos] changes neither the store nor the random source
    and appends to the output the header line followed by one line per
    reference of the house, in the order of the list; devices added with
    [agregar_dispositivo] are listed in the order they were added, a device
    added twice is listed twice, and adding a device appends its line to
    what was shown before. *)
Theorem X8_mostrar_todos_salida {G} (casa : CasaInteligente) (w : Mundo G) :
  (mostrar_todos casa w).2 =
    {| objetos := objetos w; azar := azar w;
       salida := salida w +:+ (cabecera +:+ nl) +:+
                 unir (linea_de (objetos w) <$> dispositivos casa) |} ∧
  (∀ l, dispositivos (foldl agregar_dispositivo casa l) = (dispositivos casa ++ l)%list) ∧
  (∀ r, salida (mostrar_todos (agregar_dispositivo casa r) w).2 =
        salida (mostrar_todos casa w).2 +:+ linea_de (objetos w) r).
Proof.
  assert (Heq : ∀ c : CasaInteligente,
            (mostrar_todos c w).2 =
            {| objetos := objetos w; azar := azar w;
               salida := salida w +:+ (cabecera +:+ nl) +:+
                         unir (linea_de (objetos w) <$> dispositivos c) |}).
  { intros c. unfold mostrar_todos, mbind, M_bind; simpl.
    rewrite bucle_mostrar_eq; simpl. by rewrite string_app_assoc. }
  split; [apply Heq |]. split.
  - intros l. revert casa. induction l as [|x l IH]; intros casa; simpl.
    + by rewrite app_nil_r.
    + rewrite IH; simpl. by rewrite <- app_assoc.
  - intros r. rewrite !Heq; simpl.
    rewrite fmap_app, unir_app; simpl.
    by rewrite string_app_nil_r, !string_app_assoc.
Qed.

Example mostrar_todos_repetido :
  salida (mostrar_todos {| dispositivos := [1; 1] |} (mundo_ejemplo false [])).2 =
  cabecera +:+ nl +:+
  "   [CamaraSeguridad #3] Estado: Apagado | Grabando: False" +:+ nl +:+
  "   [CamaraSeguridad #3] Estado: Apagado | Grabando: False" +:+ nl.
Proof. vm_compute. reflexivity. Qed.

(** ** The script, for every random source *)

Section Script.
Context `{RandomSource G}.

Lemma main_eq (g : G) :
  main (mundo_inicial g) =
  (for_each llamar_encender (dispositivos casa_main);;
   mostrar_todos casa_main;;
   ejecutar_escena casa_main;;
   mostrar_todos casa_main;;
   print [nl +:+ "🏁 Fin de la simulación 🏁"])
    {| objetos := objetos_main; azar := g;
       salida := "🏠 Simulación de Casa Inteligente 🏠" +:+ nl +:+ nl |}.
Proof. reflexivity. Qed.

Lemma bind_snd {A B} (m : M G A) (k : M G B) (w : Mundo G) :
  ((m;; k) w).2 = (k (m w).2).2.
Proof. unfold mbind, M_bind. by destruct (m w). Qed.

Lemma bucle_encender (l : list nat) (w : Mundo G) :
  tras_encender l (objetos w) (objetos (for_each llamar_encender l w).2).
Proof.
  revert w. induction l as [|x l IH]; intros w r.
  - simpl. by destruct (objetos w !! r).
  - change (for_each llamar_encender (x :: l))
      with (llamar_encender x;; for_each llamar_encender l).
    rewrite bind_snd.
    specialize (IH (llamar_encender x w).2 r).
    rewrite llamar_encender_objeto in IH.
    destruct (decide (x = r)) as [<- | Hx].
    + rewrite bool_decide_eq_true_2 by left.
      destruct (objetos w !! x) as [d|]; simpl in IH; [| done].
      pose proof (encender_resultado d (azar w)) as Hres.
      case_bool_decide; [| eauto].
      destruct IH as (d' & Hd' & Hres'). exists d'. split; [done |].
      by eapply resultado_encender_trans.
    + destruct (objetos w !! r) as [d|]; [| done].
      rewrite (bool_decide_ext (r ∈ x :: l) (r ∈ l)); [done |].
      rewrite elem_of_cons. split; [by intros [-> | ?] | by right].
Qed.

Lemma objetos_main_dom (r : nat) (d : Dispositivo) :
  objetos_main !! r = Some d → r ∈ dispositivos casa_main.
Proof.
  unfold objetos_main, casa_main; simpl.
  repeat (rewrite lookup_insert; case_decide;
          [subst; intros _; rewrite !elem_of_cons; auto 10 |]).
  by rewrite lookup_empty.
Qed.

(** X9: whatever the random source answers, the script ends with exactly
    its five devices in the store, under the identifiers 1 to 5 and all of
    them powered on: two lights with a brightness from 30 to 100, two
    recording cameras and the sensor. *)
Theorem X9_main_estado_final (g : G) :
  ∃ k1 k2 m,
    (30 ≤ k1 ≤ 100)%Z ∧ (30 ≤ k2 ≤ 100)%Z ∧
    objetos (main (mundo_inicial g)).2 =
    <[0 := LuzInteligente {| id_dispositivo := 1; estado := true |} k1]>
      (<[1 := LuzInteligente {| id_dispositivo := 2; estado := true |} k2]>
         (<[2 := CamaraSeguridad {| id_dispositivo := 3; estado := true |} true]>
            (<[3 := CamaraSeguridad {| id_dispositivo := 4; estado := true |} true]>
               (<[4 := SensorMovimiento {| id_dispositivo := 5; estado := true |} m]> ∅)))).
Proof.
  rewrite main_eq, !bind_snd.
  set (w0 := {| objetos := objetos_main; azar := g; salida := _ |}).
  set (w1 := (for_each llamar_encender (dispositivos casa_main) w0).2).
  set (w2 := (mostrar_todos casa_main w1).2).
  set (w3 := (ejecutar_escena casa_main w2).2).
  set (w4 := (mostrar_todos casa_main w3).2).
  change (objetos (print _ w4).2) with (objetos w4).
  assert (Hfin : ∀ r, match objetos_main !! r with
                      | Some d => ∃ d', objetos w4 !! r = Some d' ∧ resultado_encender d d'
                      | None => objetos w4 !! r = None
                      end).
  { intros r.
    pose proof (bucle_encender (dispositivos casa_main) w0 r) as H1. fold w1 in H1.
    pose proof (escena_objeto casa_main w2 r) as H3. fold w3 in H3.
    unfold w4. destruct (mostrar_todos_objetos casa_main w3) as [-> _].
    unfold w2 in H3 at 1. destruct (mostrar_todos_objetos casa_main w1) as [Ho _].
    rewrite Ho in H3. clear Ho.
    change (objetos w0) with objetos_main in H1.
    destruct (objetos_main !! r) as [d|] eqn:Hd; [| by rewrite H1 in H3].
    assert (Hr : r ∈ dispositivos casa_main) by (by eapply objetos_main_dom).
    rewrite bool_decide_eq_true_2 in H1 by done.
    destruct H1 as (d1 & Hd1 & Hres1). rewrite Hd1 in H3.
    destruct H3 as [-> | (d3 & -> & _ & _ & Hres3)]; [eauto |].
    exists d3. split; [done |]. by eapply resultado_encender_trans. }
  pose proof (Hfin 0) as (d0 & Hd0 & k1 & Hk1 & ->).
  pose proof (Hfin 1) as (d1 & Hd1 & k2 & Hk2 & ->).
  pose proof (Hfin 2) as (d2 & Hd2 & ->).
  pose proof (Hfin 3) as (d3 & Hd3 & ->).
  pose proof (Hfin 4) as (d4 & Hd4 & m & ->).
  exists k1, k2, m. split; [done |]. split; [done |].
  apply map_eq. intros r.
  destruct (decide (r = 0)) as [-> | ?]; [by rewrite Hd0, lookup_insert_eq |].
  rewrite lookup_insert_ne by done.
  destruct (decide (r = 1)) as [-> | ?]; [by rewrite Hd1, lookup_insert_eq |].
  rewrite lookup_insert_ne by done.
  destruct (decide (r = 2)) as [-> | ?]; [by rewrite Hd2, lookup_insert_eq |].
  rewrite lookup_insert_ne by done.
  destruct (decide (r = 3)) as [-> | ?]; [by rewrite Hd3, lookup_insert_eq |].
  rewrite lookup_insert_ne by done.
  destruct (decide (r = 4)) as [-> | ?]; [by rewrite Hd4, lookup_insert_eq |].
  rewrite lookup_insert_ne, lookup_empty by done.
  specialize (Hfin r). unfold objetos_main in Hfin.
  by rewrite !lookup_insert_ne, lookup_empty in Hfin by done.
Qed.

End Script.

(** ** The text of [mostrar_datos] *)

Lemma pretty_N_char_numero x : es_de_numero (pretty_N_char x) = true.
Proof. unfold pretty_N_char. by repeat case_match. Qed.

Lemma pretty_N_go_numero x s :
  todos es_de_numero s = true → todos es_de_numero (pretty_N_go x s) = true.
Proof.
  revert s. induction (N.lt_wf_0 x) as [x _ IH]; intros s Hs.
  assert (x = 0 ∨ 0 < x)%N as [-> | Hx] by lia.
  - by rewrite pretty_N_go_0.
  - rewrite pretty_N_go_step by done. apply IH.
    + by apply N.div_lt.
    + simpl. by rewrite pretty_N_char_numero.
Qed.

Lemma pretty_Z_numero (z : Z) : todos es_de_numero (pretty z) = true.
Proof.
  assert (HN : ∀ n : N, todos es_de_numero (pretty n) = true).
  { intros n. unfold pretty, pretty_N. case_decide; [done |].
    by apply pretty_N_go_numero. }
  destruct z as [|p|p]; [done | apply (HN (Npos p)) |].
  change (pretty (Zneg p)) with ("-" +:+ pretty (Npos p)).
  change (todos es_de_numero (String "-" (pretty (Npos p))) = true).
  simpl. apply HN.
Qed.

Lemma app_delim_inj (P : ascii → bool) (c : ascii) (s1 s2 t1 t2 : string) :
  todos P s1 = true → todos P s2 = true → P c = false →
  s1 +:+ String c t1 = s2 +:+ String c t2 → s1 = s2 ∧ t1 = t2.
Proof.
  intros H1 H2 Hc. revert s2 H2.
  induction s1 as [|a s1 IH]; intros [|a' s2] H2 Heq.
  - by injection Heq as ->.
  - injection Heq as -> _. simpl in H2. rewrite Hc in H2. done.
  - injection Heq as <- _. simpl in H1. rewrite Hc in H1. done.
  - injection Heq as -> Heq. simpl in H1, H2.
    apply andb_true_iff in H1 as [_ H1]. apply andb_true_iff in H2 as [_ H2].
    destruct (IH H1 s2 H2 Heq) as [-> ->]. done.
Qed.

Lemma str_bool_inj (a b : bool) : str_bool a = str_bool b → a = b.
Proof. by destruct a, b. Qed.

Lemma estado_palabra_inj (d d' : Dispositivo) (s t : string) :
  obtener_estado d +:+ " | " +:+ s = obtener_estado d' +:+ " | " +:+ t →
  estado (parte_base d) = estado (parte_base d') ∧ s = t.
Proof.
  unfold obtener_estado.
  destruct (estado (parte_base d)), (estado (parte_base d')); intros Heq;
    try discriminate Heq.
  - split; [done |]. by apply (inj (String.append "Encendido | ")) in Heq.
  - split; [done |]. by apply (inj (String.append "Apagado | ")) in Heq.
Qed.

Lemma cabeza_inj (pre : string) (x x' : Z) (d d' : Dispositivo) (s t : string) :
  pre +:+ pretty x +:+ "] Estado: " +:+ obtener_estado d +:+ " | " +:+ s =
  pre +:+ pretty x' +:+ "] Estado: " +:+ obtener_estado d' +:+ " | " +:+ t →
  x = x' ∧ estado (parte_base d) = estado (parte_base d') ∧ s = t.
Proof.
  intros Heq. apply (inj (String.append pre)) in Heq.
  apply (app_delim_inj es_de_numero "]") in Heq as [Hx Heq];
    [| apply pretty_Z_numero.. | done].
  apply (inj pretty) in Hx.
  apply (inj (String.append " Estado: ")) in Heq.
  apply estado_palabra_inj in Heq as [He Hs]. done.
Qed.

Lemma mostrar_datos_inj (d d' : Dispositivo) :
  mostrar_datos d = mostrar_datos d' → d = d'.
Proof.
  destruct d as [[x e] i|[x e] g|[x e] m], d' as [[x' e'] i'|[x' e'] g'|[x' e'] m'];
    unfold mostrar_datos, obtener_id; simpl parte_base; simpl id_dispositivo;
    intros Heq; try discriminate Heq.
  - apply (cabeza_inj "[LuzInteligente #") in Heq as (-> & He & Heq).
    simpl in He. subst e'.
    apply (inj (String.append "Intensidad: ")) in Heq.
    apply (app_delim_inj es_de_numero "%") in Heq as [Hi _];
      [| apply pretty_Z_numero.. | done].
    by apply (inj pretty) in Hi as ->.
  - apply (cabeza_inj "[CamaraSeguridad #") in Heq as (-> & He & Heq).
    simpl in He. subst e'.
    apply (inj (String.append "Grabando: ")) in Heq.
    by apply str_bool_inj in Heq as ->.
  - apply (cabeza_inj "[SensorMovimiento #") in Heq as (-> & He & Heq).
    simpl in He. subst e'.
    apply (inj (String.append "Movimiento detectado: ")) in Heq.
    by apply str_bool_inj in Heq as ->.
Qed.

(** X10: the line [mostrar_datos] returns tells the whole state of the
    device: two devices have the same line exactly when they are of the
    same class and agree on identifier, power state and variant
    attribute. *)
Theorem X10_mostrar_datos_inyectiva (d d' : Dispositivo) :
  mostrar_datos d = mostrar_datos d' ↔ d = d'.
Proof. split; [apply mostrar_datos_inj | by intros ->]. Qed.

(** ** The motion check and the list of the house *)

(** X11: the motion check looks at which references the house holds, not
    at their order or multiplicity; and adding a device makes it true when
    it was true already or when the new device is a sensor that reports
    motion, and only then. *)
Theorem X11_hay_movimiento_agregar {G} (casa : CasaInteligente) (w : Mundo G) :
  (∀ casa', (∀ r, r ∈ dispositivos casa ↔ r ∈ dispositivos casa') →
            hay_movimiento casa' w = hay_movimiento casa w) ∧
  (∀ r, hay_movimiento (agregar_dispositivo casa r) w =
        hay_movimiento casa w ||
        match objetos w !! r with
        | Some (SensorMovimiento _ m) => m
        | _ => false
        end).
Proof.
  split.
  - intros casa' Hmismos. apply eq_true_iff_eq. rewrite !hay_movimiento_true.
    split; intros (r & b & Hr & Hd); exists r, b; (split; [| done]);
      by apply Hmismos.
  - intros r. apply eq_true_iff_eq.
    rewrite orb_true_iff, !hay_movimiento_true. simpl. split.
    + intros (r' & b & Hr' & Hd). apply elem_of_app in Hr' as [Hr' | Hr'].
      * left. eauto.
      * apply list_elem_of_singleton in Hr' as ->. right. by rewrite Hd.
    + intros [(r' & b & Hr' & Hd) | Hm].
      * exists r', b. split; [| done]. apply elem_of_app. by left.
      * destruct (objetos w !! r) as [[| |b m]|] eqn:Hd; try discriminate.
        subst m. exists r, b. split; [| done].
        apply elem_of_app. right. by apply list_elem_of_singleton.
Qed.

Lemma X11_hay_movimiento_agregar_witness :
  (∀ r, r ∈ [2; 0] ↔ r ∈ [0; 2; 2]) ∧
  hay_movimiento {| dispositivos := [0; 2; 2] |} (mundo_ejemplo true ([] : Cinta)) =
  hay_movimiento {| dispositivos := [2; 0] |} (mundo_ejemplo true ([] : Cinta)).
Proof.
  assert (Hmismos : ∀ r, r ∈ [2; 0] ↔ r ∈ [0; 2; 2]).
  { intros r. rewrite !elem_of_cons, !elem_of_nil. tauto. }
  split; [exact Hmismos |].
  exact (proj1 (X11_hay_movimiento_agregar {| dispositivos := [2; 0] |}
                  (mundo_ejemplo true ([] : Cinta)))
               {| dispositivos := [0; 2; 2] |} Hmismos).
Defined.
